(** * rumble-test.py: rumble command for the Xbox 360 wireless receiver

    A shallow embedding of the script [rumble-test.py] and the properties
    of its device-interaction contract.

    The script is straight-line code over the pyusb library: it looks the
    receiver up by vendor/product id, activates its configuration, scans
    the active configuration for an interrupt OUT endpoint, claims the
    interface the scan ended on, and writes two 8-byte packets two
    seconds apart.

    The embedding has four layers:
    - [Usb]: the descriptors the script reads and the two decoding
      helpers of [usb.util] it calls;
    - [Scan]: the nested [for] loops over interfaces and endpoints,
      with the two variables [ep_out] and [intf] they assign;
    - [Script]: the whole program in a small monad that records every
      library call in a trace and lets the device fail any USB call;
    - [Exit]: what pyusb does to the claimed interfaces when the
      interpreter exits. *)

From Stdlib Require Import ZArith List String Bool Lia.
Import ListNotations.

Local Open Scope Z_scope.

(** ** USB descriptors *)

Module Usb.

(** The constants and helpers of [usb.util] the script uses.  pyusb is a
    dependency of the script, not part of it; the values below are the
    ones of the USB descriptor layout: bit 7 of [bEndpointAddress] is
    the direction, the two low bits of [bmAttributes] the transfer
    type. *)
Definition ENDPOINT_IN : Z := 0x80.
Definition ENDPOINT_OUT : Z := 0x00.

Definition ENDPOINT_TYPE_CTRL : Z := 0x00.
Definition ENDPOINT_TYPE_ISO : Z := 0x01.
Definition ENDPOINT_TYPE_BULK : Z := 0x02.
Definition ENDPOINT_TYPE_INTR : Z := 0x03.

Definition endpoint_direction (address : Z) : Z := Z.land address 0x80.
Definition endpoint_type (bmAttributes : Z) : Z := Z.land bmAttributes 0x03.

(** An endpoint descriptor, with the two fields the script reads. *)
Record Endpoint : Type := mkEndpoint {
  bEndpointAddress : Z;
  bmAttributes : Z
}.

(** An interface descriptor; iterating it yields its endpoints in
    descriptor order. *)
Record Interface : Type := mkInterface {
  bInterfaceNumber : Z;
  endpoints : list Endpoint
}.

(** A configuration; iterating it yields its interfaces in
    configuration order. *)
Definition Configuration : Type := list Interface.

(** An attached device: the two ids [usb.core.find] filters on, and the
    configuration that [set_configuration()] activates and
    [get_active_configuration()] then returns. *)
Record Device : Type := mkDevice {
  idVendor : Z;
  idProduct : Z;
  configuration : Configuration
}.

(** Direction OUT and transfer type interrupt, as one test. *)
Definition is_interrupt_out (ep : Endpoint) : bool :=
  (endpoint_direction (bEndpointAddress ep) =? ENDPOINT_OUT)
  && (endpoint_type (bmAttributes ep) =? ENDPOINT_TYPE_INTR).

(** Whether an interface holds an interrupt OUT endpoint. *)
Definition has_interrupt_out (i : Interface) : bool :=
  existsb is_interrupt_out (endpoints i).

End Usb.

Import Usb.

(** ** The endpoint scan *)

Module Scan.

(** The two variables the loops assign. *)
Record Vars : Type := mkVars {
  ep_out : option Endpoint;
  intf : option Interface
}.

(** [ep_out = None; intf = None] *)
Definition init : Vars := {| ep_out := None; intf := None |}.

(** The inner loop, [for ep in interface: ...].  The [break] leaves this
    loop only: the remaining endpoints of [interface] are skipped and
    control returns to the loop over interfaces. *)
Fixpoint endpoint_loop (interface : Interface) (eps : list Endpoint)
    (st : Vars) : Vars :=
  match eps with
  | [] => st
  | ep :: rest =>
      if endpoint_direction (bEndpointAddress ep) =? ENDPOINT_OUT then
        if endpoint_type (bmAttributes ep) =? ENDPOINT_TYPE_INTR then
          {| ep_out := Some ep; intf := Some interface |}
        else endpoint_loop interface rest st
      else endpoint_loop interface rest st
  end.

(** The outer loop, [for interface in cfg: ...].  It has no exit of its
    own, so every interface is visited. *)
Fixpoint interface_loop (cfg : list Interface) (st : Vars) : Vars :=
  match cfg with
  | [] => st
  | interface :: rest =>
      interface_loop rest (endpoint_loop interface (endpoints interface) st)
  end.

(** The block under [# find interrupt OUT endpoint]: both variables
    start at [None] and the loops run over the active configuration. *)
Definition resolve (cfg : Configuration) : Vars :=
  interface_loop cfg init.

(** The resolver as the specification words it: interfaces in
    configuration order, endpoints in descriptor order, the first
    endpoint that is interrupt OUT, with its owning interface. *)
Fixpoint first_match (cfg : Configuration) : option (Endpoint * Interface) :=
  match cfg with
  | [] => None
  | i :: rest =>
      match find is_interrupt_out (endpoints i) with
      | Some ep => Some (ep, i)
      | None => first_match rest
      end
  end.

(** The loop invariant on the two variables: they are both unset, or
    [intf] is an interface of the configuration and [ep_out] one of its
    endpoints. *)
Definition paired (cfg : Configuration) (st : Vars) : Prop :=
  match ep_out st, intf st with
  | None, None => True
  | Some ep, Some i => In i cfg /\ In ep (endpoints i)
  | _, _ => False
  end.

(** The two variables as set from an optional endpoint with its
    interface. *)
Definition selection (m : option (Endpoint * Interface)) : Vars :=
  match m with
  | Some (ep, i) => {| ep_out := Some ep; intf := Some i |}
  | None => init
  end.

End Scan.

Import Scan.

(** ** The script *)

Module Script.

(** The USB calls of the script that the device can fail. *)
Inductive CallSite : Type :=
| SetConfiguration
| GetActiveConfiguration
| ClaimInterface
| WriteRumble
| WriteStop.

(** What the process does to the outside, in program order.
    [EvReleaseInterface] is the release of a claimed interface
    ([usb.util.release_interface]); the script has no such call. *)
Inductive Event : Type :=
| EvFind (idVendor idProduct : Z)
| EvSetConfiguration
| EvGetActiveConfiguration
| EvClaimInterface (bInterfaceNumber : Z)
| EvReleaseInterface (bInterfaceNumber : Z)
| EvWrite (endpoint : Z) (data : list Z)
| EvSleep (seconds : Z)
| EvPrint (text : string).

(** The exceptions that can end the process: the two the script raises
    itself, the [AttributeError] of [intf.bInterfaceNumber] on [None],
    and a failed USB call, which the script does not catch. *)
Inductive Exn : Type :=
| Exception (msg : string)
| AttributeError
| USBError (site : CallSite).

Inductive Result (A : Type) : Type :=
| Returned (a : A)
| Raised (e : Exn).
Arguments Returned {A} a.
Arguments Raised {A} e.

(** The environment of one run: the devices attached to the host, in
    the order the backend enumerates them, and which USB calls fail. *)
Record Env : Type := mkEnv {
  attached : list Device;
  fails : CallSite -> bool
}.

(** Computations read the environment, extend the trace, and return or
    raise. *)
Definition M (A : Type) : Type := Env -> list Event -> Result A * list Event.

Definition ret {A : Type} (a : A) : M A := fun _ tr => (Returned a, tr).

Definition bind {A B : Type} (c : M A) (k : A -> M B) : M B :=
  fun env tr =>
    match c env tr with
    | (Returned a, tr') => k a env tr'
    | (Raised e, tr') => (Raised e, tr')
    end.

Definition raise {A : Type} (e : Exn) : M A := fun _ tr => (Raised e, tr).

Definition emit (ev : Event) : M unit := fun _ tr => (Returned tt, tr ++ [ev]).

(** A USB call is recorded, and then fails or not as the environment
    says. *)
Definition usb_call (site : CallSite) (ev : Event) : M unit :=
  fun env tr =>
    if fails env site then (Raised (USBError site), tr ++ [ev])
    else (Returned tt, tr ++ [ev]).

Declare Scope script_scope.
Delimit Scope script_scope with script.
Notation "x <- c ;; k" := (bind c (fun x => k))
  (at level 61, c at next level, right associativity) : script_scope.
Notation "c ;; k" := (bind c (fun _ => k))
  (at level 61, right associativity) : script_scope.
Local Open Scope script_scope.

Definition VID : Z := 0x045e.
Definition PID : Z := 0x0719.

(** [usb.core.find(idVendor=..., idProduct=...)] over the attached
    devices: the first device with both ids, or [None]. *)
Definition usb_core_find (idV idP : Z) (devices : list Device) : option Device :=
  find (fun d => (idVendor d =? idV) && (idProduct d =? idP)) devices.

Definition find_device (idV idP : Z) : M (option Device) :=
  fun env tr => (Returned (usb_core_find idV idP (attached env)), tr ++ [EvFind idV idP]).

Definition set_configuration (dev : Device) : M unit :=
  usb_call SetConfiguration EvSetConfiguration.

Definition get_active_configuration (dev : Device) : M Configuration :=
  usb_call GetActiveConfiguration EvGetActiveConfiguration ;;
  ret (configuration dev).

Definition claim_interface (dev : Device) (n : Z) : M unit :=
  usb_call ClaimInterface (EvClaimInterface n).

Definition write (site : CallSite) (dev : Device) (endpoint : Z)
    (data : list Z) : M unit :=
  usb_call site (EvWrite endpoint data).

Definition sleep (seconds : Z) : M unit := emit (EvSleep seconds).

Definition print (text : string) : M unit := emit (EvPrint text).

(** The two packets, [data] before and after the sleep. *)
Definition rumble_packet : list Z := [0x00; 0x08; 0xFF; 0xFF; 0; 0; 0; 0].
Definition stop_packet : list Z := [0x00; 0x08; 0x00; 0x00; 0; 0; 0; 0].

(** The script, top to bottom. *)
Definition script : M unit :=
  dev <- find_device VID PID ;;
  match dev with
  | None => raise (Exception "Receiver not found")
  | Some dev =>
      set_configuration dev ;;
      cfg <- get_active_configuration dev ;;
      let st := resolve cfg in
      match ep_out st with
      | None => raise (Exception "Interrupt OUT endpoint not found")
      | Some ep =>
          match intf st with
          | None => raise AttributeError
          | Some i =>
              claim_interface dev (bInterfaceNumber i) ;;
              let data := rumble_packet in
              write WriteRumble dev (bEndpointAddress ep) data ;;
              sleep 2 ;;
              let data := stop_packet in
              write WriteStop dev (bEndpointAddress ep) data ;;
              print "Done"
          end
      end
  end.

(** One run of the process: the script from an empty trace. *)
Definition run (env : Env) : Result unit * list Event := script env [].

Definition result (r : Result unit * list Event) : Result unit := fst r.
Definition trace (r : Result unit * list Event) : list Event := snd r.

Definition is_write (ev : Event) : bool :=
  match ev with EvWrite _ _ => true | _ => false end.



(** The trace of a run that completes on endpoint [ep] of interface [i]. *)
Definition complete_trace (ep : Endpoint) (i : Interface) : list Event :=
  [ EvFind VID PID; EvSetConfiguration; EvGetActiveConfiguration;
    EvClaimInterface (bInterfaceNumber i);
    EvWrite (bEndpointAddress ep) rumble_packet;
    EvSleep 2;
    EvWrite (bEndpointAddress ep) stop_packet;
    EvPrint "Done" ].

(** How many events a run has recorded when the call at [s] fails: the
    calls before it, and the failed call itself. *)
Definition calls_through (s : CallSite) : nat :=
  match s with
  | SetConfiguration => 2
  | GetActiveConfiguration => 3
  | ClaimInterface => 4
  | WriteRumble => 5
  | WriteStop => 7
  end.


End Script.

Import Script.

(** ** Interpreter exit *)

Module Exit.

(** What happens after the script's last statement is pyusb's doing, not
    the script's.  A [usb.core.Device] is finalized when the interpreter
    exits, after a normal end and after an uncaught exception alike, and
    its finalizer releases every interface the device object holds as
    claimed.  [usb.util.claim_interface] records an interface as claimed
    when its USB call went through.  Interfaces pyusb claims on its own
    inside [dev.write] are not calls of the script and are not recorded. *)





End Exit.

Import Exit.

(** ** Sample devices *)

Module Samples.

Definition ep_in (n : Z) : Endpoint :=
  {| bEndpointAddress := Z.lor 0x80 n; bmAttributes := 0x03 |}.
Definition ep_out_intr (n : Z) : Endpoint :=
  {| bEndpointAddress := n; bmAttributes := 0x03 |}.
Definition ep_bulk_out (n : Z) : Endpoint :=
  {| bEndpointAddress := n; bmAttributes := 0x02 |}.
Definition ep_control : Endpoint :=
  {| bEndpointAddress := 0x00; bmAttributes := 0x00 |}.

(** One interface with an interrupt IN and an interrupt OUT endpoint,
    the IN one first. *)
Definition in_and_out : Configuration :=
  [ {| bInterfaceNumber := 0; endpoints := [ep_in 1; ep_out_intr 1] |} ].

(** Only a bulk OUT and a control endpoint. *)
Definition bulk_and_control : Configuration :=
  [ {| bInterfaceNumber := 0; endpoints := [ep_bulk_out 2; ep_control] |} ].

(** Two interfaces, each with an interrupt IN and an interrupt OUT
    endpoint, as the first two interfaces of the wireless receiver. *)
Definition if0 : Interface :=
  {| bInterfaceNumber := 0; endpoints := [ep_in 1; ep_out_intr 1] |}.
Definition if1 : Interface :=
  {| bInterfaceNumber := 1; endpoints := [ep_in 2; ep_out_intr 2] |}.
Definition two_interfaces : Configuration := [if0; if1].

Definition receiver (cfg : Configuration) : Device :=
  {| idVendor := 0x045e; idProduct := 0x0719; configuration := cfg |}.

Definition mouse : Device :=
  {| idVendor := 0x046d; idProduct := 0xc077; configuration := in_and_out |}.

Definition healthy (devices : list Device) : Env :=
  {| attached := devices; fails := fun _ => false |}.

(** The device drops off the bus during the first write. *)
Definition unplugged (devices : list Device) : Env :=
  {| attached := devices;
     fails := fun s => match s with WriteRumble => true | _ => false end |}.

End Samples.

Import Samples.

(** ** Facts about the loops *)

Section ScanFacts.

(** One pass of the inner loop is a [find] for the first interrupt OUT
    endpoint; the variables change exactly when there is one. *)
Lemma endpoint_loop_find (interface : Interface) (eps : list Endpoint)
    (st : Vars) :
  endpoint_loop interface eps st =
    match find is_interrupt_out eps with
    | Some ep => {| ep_out := Some ep; intf := Some interface |}
    | None => st
    end.
Proof.
  induction eps as [|ep rest IH]; cbn [endpoint_loop find]; [reflexivity|].
  unfold is_interrupt_out at 1.
  destruct (endpoint_direction (bEndpointAddress ep) =? ENDPOINT_OUT);
    cbn [andb]; [|exact IH].
  destruct (endpoint_type (bmAttributes ep) =? ENDPOINT_TYPE_INTR);
    [reflexivity | exact IH].
Qed.

Lemma find_none_existsb {A : Type} (p : A -> bool) (l : list A) :
  find p l = None <-> existsb p l = false.
Proof.
  induction l as [|a l IH]; cbn; [tauto|].
  destruct (p a); cbn; [split; discriminate | exact IH].
Qed.

Lemma endpoint_loop_skip (interface : Interface) (st : Vars) :
  has_interrupt_out interface = false ->
  endpoint_loop interface (endpoints interface) st = st.
Proof.
  intros H. rewrite endpoint_loop_find.
  apply find_none_existsb in H. now rewrite H.
Qed.

Lemma interface_loop_app (pre post : list Interface) (st : Vars) :
  interface_loop (pre ++ post) st = interface_loop post (interface_loop pre st).
Proof.
  revert st. induction pre as [|i pre IH]; intros st; cbn; [reflexivity|].
  apply IH.
Qed.

(** Interfaces without an interrupt OUT endpoint leave the variables
    alone. *)
Lemma interface_loop_skip (cfg : list Interface) (st : Vars) :
  forallb (fun i => negb (has_interrupt_out i)) cfg = true ->
  interface_loop cfg st = st.
Proof.
  revert st. induction cfg as [|i cfg IH]; intros st H; cbn in *; [reflexivity|].
  apply andb_true_iff in H as [Hi Hrest].
  apply negb_true_iff in Hi.
  rewrite endpoint_loop_skip by exact Hi. now apply IH.
Qed.

(** The invariant is kept by the inner loop... *)
Lemma endpoint_loop_paired (cfg : Configuration) (interface : Interface)
    (eps : list Endpoint) (st : Vars) :
  In interface cfg -> incl eps (endpoints interface) ->
  paired cfg st -> paired cfg (endpoint_loop interface eps st).
Proof.
  intros Hi Heps Hst. rewrite endpoint_loop_find.
  destruct (find is_interrupt_out eps) as [ep|] eqn:F; [|exact Hst].
  apply find_some in F as [Hin _].
  unfold paired; cbn. split; [exact Hi | now apply Heps].
Qed.

(** ... and by the outer loop, over any suffix of the configuration. *)
Lemma interface_loop_paired (cfg : Configuration) (rest : list Interface)
    (st : Vars) :
  incl rest cfg -> paired cfg st -> paired cfg (interface_loop rest st).
Proof.
  revert st. induction rest as [|i rest IH]; intros st Hincl Hst; cbn;
    [exact Hst|].
  apply IH.
  - intros x Hx. apply Hincl. now right.
  - apply endpoint_loop_paired; [apply Hincl; now left | apply incl_refl | exact Hst].
Qed.

Lemma resolve_paired (cfg : Configuration) : paired cfg (resolve cfg).
Proof.
  apply interface_loop_paired; [apply incl_refl | exact I].
Qed.

(** What the loops compute: the first interrupt OUT endpoint of the
    last interface that has one. *)
Lemma interface_loop_last (pre post : list Interface) (i : Interface)
    (ep : Endpoint) (st : Vars) :
  find is_interrupt_out (endpoints i) = Some ep ->
  forallb (fun j => negb (has_interrupt_out j)) post = true ->
  interface_loop (pre ++ i :: post) st =
    {| ep_out := Some ep; intf := Some i |}.
Proof.
  intros Hep Hpost. rewrite interface_loop_app. cbn [interface_loop].
  rewrite interface_loop_skip by exact Hpost.
  rewrite endpoint_loop_find. now rewrite Hep.
Qed.

(** The selected endpoint, when there is one, passed both tests. *)
Lemma interface_loop_selected (cfg : list Interface) (st : Vars) (ep : Endpoint) :
  ep_out (interface_loop cfg st) = Some ep ->
  ep_out st = Some ep \/ is_interrupt_out ep = true.
Proof.
  revert st. induction cfg as [|i cfg IH]; intros st H; cbn in H; [now left|].
  apply IH in H as [H|H]; [|now right].
  rewrite endpoint_loop_find in H.
  destruct (find is_interrupt_out (endpoints i)) as [e|] eqn:F; [|now left].
  cbn in H. injection H as ->. right.
  now apply find_some in F as [_ F].
Qed.

(** The scan leaves [ep_out] unset exactly when no interface has an
    interrupt OUT endpoint. *)
Lemma interface_loop_none (cfg : list Interface) (st : Vars) :
  ep_out (interface_loop cfg st) = None <->
  ep_out st = None /\ existsb has_interrupt_out cfg = false.
Proof.
  revert st. induction cfg as [|i cfg IH]; intros st;
    cbn [interface_loop existsb]; [tauto|].
  rewrite IH, endpoint_loop_find, orb_false_iff.
  change (has_interrupt_out i) with (existsb is_interrupt_out (endpoints i)).
  destruct (find is_interrupt_out (endpoints i)) as [e|] eqn:F.
  - assert (existsb is_interrupt_out (endpoints i) <> false)
      by (intros Hx; apply find_none_existsb in Hx; congruence).
    cbn [ep_out].
    split; [intros [? _]; discriminate | intros [_ [? _]]; contradiction].
  - apply find_none_existsb in F. rewrite F. tauto.
Qed.

End ScanFacts.

(** The four ways a run can end, on sample devices. *)

Example run_in_and_out :
  run (healthy [mouse; receiver in_and_out]) =
    (Returned tt,
     [ EvFind 0x045e 0x0719; EvSetConfiguration; EvGetActiveConfiguration;
       EvClaimInterface 0; EvWrite 0x01 [0; 8; 255; 255; 0; 0; 0; 0];
       EvSleep 2; EvWrite 0x01 [0; 8; 0; 0; 0; 0; 0; 0]; EvPrint "Done" ]).
Proof. reflexivity. Qed.

Example run_no_receiver :
  run (healthy [mouse]) =
    (Raised (Exception "Receiver not found"), [EvFind 0x045e 0x0719]).
Proof. reflexivity. Qed.

Example run_bulk_and_control :
  run (healthy [receiver bulk_and_control]) =
    (Raised (Exception "Interrupt OUT endpoint not found"),
     [EvFind 0x045e 0x0719; EvSetConfiguration; EvGetActiveConfiguration]).
Proof. reflexivity. Qed.

Example run_unplugged :
  run (unplugged [receiver in_and_out]) =
    (Raised (USBError WriteRumble),
     [ EvFind 0x045e 0x0719; EvSetConfiguration; EvGetActiveConfiguration;
       EvClaimInterface 0; EvWrite 0x01 [0; 8; 255; 255; 0; 0; 0; 0] ]).
Proof. reflexivity. Qed.

Example run_two_interfaces :
  run (healthy [receiver two_interfaces]) =
    (Returned tt,
     [ EvFind 0x045e 0x0719; EvSetConfiguration; EvGetActiveConfiguration;
       EvClaimInterface 1; EvWrite 0x02 [0; 8; 255; 255; 0; 0; 0; 0];
       EvSleep 2; EvWrite 0x02 [0; 8; 0; 0; 0; 0; 0; 0]; EvPrint "Done" ]).
Proof. reflexivity. Qed.

(** ** Facts about the script *)

Section ScriptFacts.

(** The run, flattened: which call or test ends it, with what trace. *)
Lemma run_unfold (env : Env) :
  run env =
    match usb_core_find VID PID (attached env) with
    | None => (Raised (Exception "Receiver not found"), [EvFind VID PID])
    | Some dev =>
        if fails env SetConfiguration then
          (Raised (USBError SetConfiguration), [EvFind VID PID; EvSetConfiguration])
        else if fails env GetActiveConfiguration then
          (Raised (USBError GetActiveConfiguration),
           [EvFind VID PID; EvSetConfiguration; EvGetActiveConfiguration])
        else
          match ep_out (resolve (configuration dev)),
                intf (resolve (configuration dev)) with
          | None, _ =>
              (Raised (Exception "Interrupt OUT endpoint not found"),
               [EvFind VID PID; EvSetConfiguration; EvGetActiveConfiguration])
          | Some ep, None =>
              (Raised AttributeError,
               [EvFind VID PID; EvSetConfiguration; EvGetActiveConfiguration])
          | Some ep, Some i =>
              if fails env ClaimInterface then
                (Raised (USBError ClaimInterface), firstn 4 (complete_trace ep i))
              else if fails env WriteRumble then
                (Raised (USBError WriteRumble), firstn 5 (complete_trace ep i))
              else if fails env WriteStop then
                (Raised (USBError WriteStop), firstn 7 (complete_trace ep i))
              else (Returned tt, complete_trace ep i)
          end
    end.
Proof.
  unfold run, script, bind, find_device, set_configuration,
    get_active_configuration, claim_interface, write, sleep, print,
    usb_call, emit, raise, ret, bind.
  destruct (usb_core_find VID PID (attached env)) as [dev|]; [|reflexivity].
  destruct (fails env SetConfiguration); [reflexivity|].
  destruct (fails env GetActiveConfiguration); [reflexivity|].
  destruct (ep_out (resolve (configuration dev))) as [ep|]; [|reflexivity].
  destruct (intf (resolve (configuration dev))) as [i|]; [|reflexivity].
  destruct (fails env ClaimInterface); [reflexivity|].
  destruct (fails env WriteRumble); [reflexivity|].
  destruct (fails env WriteStop); reflexivity.
Qed.

Lemma usb_core_find_none (idV idP : Z) (devices : list Device) :
  usb_core_find idV idP devices = None <->
  forall d, In d devices -> ~ (idVendor d = idV /\ idProduct d = idP).
Proof.
  unfold usb_core_find. split.
  - intros H d Hd [Hv Hp].
    apply (find_none _ _ H) in Hd. cbn in Hd.
    rewrite Hv, Hp, !Z.eqb_refl in Hd. discriminate.
  - intros H. induction devices as [|d ds IH]; cbn; [reflexivity|].
    destruct (idVendor d =? idV) eqn:Ev, (idProduct d =? idP) eqn:Ep; cbn;
      try (apply IH; intros x Hx; apply H; now right).
    exfalso. apply (H d); [now left|].
    split; now apply Z.eqb_eq.
Qed.

Lemma is_interrupt_out_iff (ep : Endpoint) :
  is_interrupt_out ep = true <->
  endpoint_direction (bEndpointAddress ep) = ENDPOINT_OUT
  /\ endpoint_type (bmAttributes ep) = ENDPOINT_TYPE_INTR.
Proof.
  unfold is_interrupt_out. now rewrite andb_true_iff, !Z.eqb_eq.
Qed.

Lemma no_interrupt_out_iff (cfg : Configuration) :
  existsb has_interrupt_out cfg = false <->
  forall i ep, In i cfg -> In ep (endpoints i) ->
    ~ (endpoint_direction (bEndpointAddress ep) = ENDPOINT_OUT
       /\ endpoint_type (bmAttributes ep) = ENDPOINT_TYPE_INTR).
Proof.
  split.
  - intros H i ep Hi Hep Hq. apply is_interrupt_out_iff in Hq.
    assert (existsb has_interrupt_out cfg = true) as E; [|congruence].
    apply existsb_exists. exists i. split; [exact Hi|].
    apply existsb_exists. now exists ep.
  - intros H. destruct (existsb has_interrupt_out cfg) eqn:E; [|reflexivity].
    apply existsb_exists in E as [i [Hi E]].
    apply existsb_exists in E as [ep [Hep E]].
    apply is_interrupt_out_iff in E. now destruct (H i ep Hi Hep).
Qed.

Lemma resolve_none_iff (cfg : Configuration) :
  ep_out (resolve cfg) = None <-> existsb has_interrupt_out cfg = false.
Proof.
  unfold resolve. rewrite interface_loop_none. cbn. tauto.
Qed.

(** A run that returns went through every step: it found a device,
    the scan set both variables, and the trace is the complete one. *)
Lemma run_returned (env : Env) :
  result (run env) = Returned tt ->
  exists dev ep i,
    usb_core_find VID PID (attached env) = Some dev
    /\ resolve (configuration dev) = {| ep_out := Some ep; intf := Some i |}
    /\ run env = (Returned tt, complete_trace ep i).
Proof.
  intros H. rewrite (run_unfold env) in *.
  destruct (usb_core_find VID PID (attached env)) as [dev|]; [|discriminate].
  exists dev.
  destruct (resolve (configuration dev)) as [[ep|] [i|]]; cbn [ep_out intf] in *;
    repeat match type of H with
      | context [if ?b then _ else _] => destruct b
      end; try discriminate.
  exists ep, i. repeat split.
Qed.

Lemma find_first {A : Type} (p : A -> bool) (before after : list A) (a : A) :
  (forall x, In x before -> p x = false) -> p a = true ->
  find p (before ++ a :: after) = Some a.
Proof.
  intros Hb Ha. induction before as [|b before IH]; cbn.
  - now rewrite Ha.
  - rewrite (Hb b) by now left. apply IH. intros x Hx. apply Hb. now right.
Qed.

Lemma forallb_no_interrupt_out (l : list Interface) :
  (forall j, In j l -> has_interrupt_out j = false) ->
  forallb (fun j => negb (has_interrupt_out j)) l = true.
Proof.
  intros H. apply forallb_forall. intros j Hj. now rewrite (H j Hj).
Qed.

(** Where a single interface has an interrupt OUT endpoint, the loops
    and the first-match reading agree. *)
Lemma resolve_first_match_single (pre post : list Interface) (i : Interface)
    (ep : Endpoint) :
  (forall j, In j pre -> has_interrupt_out j = false) ->
  (forall j, In j post -> has_interrupt_out j = false) ->
  find is_interrupt_out (endpoints i) = Some ep ->
  first_match (pre ++ i :: post) = Some (ep, i)
  /\ resolve (pre ++ i :: post) = {| ep_out := Some ep; intf := Some i |}.
Proof.
  intros Hpre Hpost Hep. split.
  - induction pre as [|j pre IH]; cbn.
    + now rewrite Hep.
    + assert (find is_interrupt_out (endpoints j) = None) as ->
        by (apply find_none_existsb, Hpre; now left).
      apply IH. intros x Hx. apply Hpre. now right.
  - apply interface_loop_last; [exact Hep|].
    now apply forallb_no_interrupt_out.
Qed.

End ScriptFacts.

(** ** The endpoint resolver *)

(** C1. The specification reads the resolver as first-match over the
    whole configuration.  On two interfaces that each have an interrupt
    OUT endpoint the loops end on the endpoint of the later interface:
    the [break] leaves the loop over endpoints only, and the loop over
    interfaces goes on and assigns again. *)
Theorem resolve_two_interfaces_selects_later :
  first_match two_interfaces = Some (ep_out_intr 1, if0)
  /\ resolve two_interfaces = {| ep_out := Some (ep_out_intr 2); intf := Some if1 |}
  /\ ep_out (resolve two_interfaces) <> option_map fst (first_match two_interfaces).
Proof.
  repeat split. cbn. discriminate.
Qed.

(** C2. When the scan selects an endpoint, that endpoint has direction
    OUT and transfer type interrupt, so it is not an IN endpoint, and it
    is an endpoint of an interface of the configuration.  The scan does
    select one as soon as the configuration holds an interrupt OUT
    endpoint, whatever IN endpoints it holds besides; where that
    endpoint is the only interrupt OUT one, it is the one selected. *)
Theorem resolve_selects_interrupt_out (cfg : Configuration) :
  (forall ep, ep_out (resolve cfg) = Some ep ->
     endpoint_direction (bEndpointAddress ep) = ENDPOINT_OUT
     /\ endpoint_type (bmAttributes ep) = ENDPOINT_TYPE_INTR
     /\ endpoint_direction (bEndpointAddress ep) <> ENDPOINT_IN
     /\ exists i, intf (resolve cfg) = Some i /\ In i cfg /\ In ep (endpoints i))
  /\ (forall i e, In i cfg -> In e (endpoints i) ->
        endpoint_direction (bEndpointAddress e) = ENDPOINT_OUT ->
        endpoint_type (bmAttributes e) = ENDPOINT_TYPE_INTR ->
        exists ep, ep_out (resolve cfg) = Some ep)
  /\ (forall i e, In i cfg -> In e (endpoints i) ->
        endpoint_direction (bEndpointAddress e) = ENDPOINT_OUT ->
        endpoint_type (bmAttributes e) = ENDPOINT_TYPE_INTR ->
        (forall i' e', In i' cfg -> In e' (endpoints i') ->
           endpoint_direction (bEndpointAddress e') = ENDPOINT_OUT ->
           endpoint_type (bmAttributes e') = ENDPOINT_TYPE_INTR -> e' = e) ->
        ep_out (resolve cfg) = Some e).
Proof.
  assert (forall ep, ep_out (resolve cfg) = Some ep ->
            endpoint_direction (bEndpointAddress ep) = ENDPOINT_OUT
            /\ endpoint_type (bmAttributes ep) = ENDPOINT_TYPE_INTR
            /\ endpoint_direction (bEndpointAddress ep) <> ENDPOINT_IN
            /\ exists i, intf (resolve cfg) = Some i /\ In i cfg
                         /\ In ep (endpoints i)) as Hsel.
  { intros ep H.
    pose proof (resolve_paired cfg) as Hpair. unfold paired in Hpair.
    rewrite H in Hpair.
    unfold resolve in H.
    apply interface_loop_selected in H as [H|H]; [discriminate|].
    apply is_interrupt_out_iff in H as [Hd Ht].
    repeat split; [exact Hd | exact Ht | rewrite Hd; discriminate |].
    destruct (intf (resolve cfg)) as [i|]; [|contradiction].
    now exists i. }
  assert (forall i e, In i cfg -> In e (endpoints i) ->
            endpoint_direction (bEndpointAddress e) = ENDPOINT_OUT ->
            endpoint_type (bmAttributes e) = ENDPOINT_TYPE_INTR ->
            exists ep, ep_out (resolve cfg) = Some ep) as Hex.
  { intros i e Hi He Hd Ht.
    destruct (ep_out (resolve cfg)) as [ep|] eqn:E; [now exists ep|].
    apply resolve_none_iff in E.
    destruct (proj1 (no_interrupt_out_iff cfg) E i e Hi He). now split. }
  repeat split; try (apply Hsel; assumption); [exact Hex|].
  intros i e Hi He Hd Ht Huniq.
  destruct (Hex i e Hi He Hd Ht) as [ep Hep].
  destruct (Hsel ep Hep) as (Hd' & Ht' & _ & j & _ & Hj & Hin).
  now rewrite Hep, (Huniq j ep Hj Hin Hd' Ht').
Qed.

(** On an interface with an interrupt IN endpoint followed by an
    interrupt OUT endpoint, the OUT one is selected. *)
Lemma resolve_selects_interrupt_out_witness :
  ep_out (resolve in_and_out) = Some (ep_out_intr 1).
Proof.
  destruct (resolve_selects_interrupt_out in_and_out) as (_ & _ & Hthe).
  apply (Hthe {| bInterfaceNumber := 0; endpoints := [ep_in 1; ep_out_intr 1] |}
              (ep_out_intr 1)).
  - now left.
  - right. now left.
  - reflexivity.
  - reflexivity.
  - intros i' e' [<-|[]] [<-|[<-|[]]] Hd Ht; [discriminate Hd | reflexivity].
Defined.

(** C3. Once the device is found and its configuration is active, the run
    raises "Interrupt OUT endpoint not found" exactly when no endpoint of
    any interface of the active configuration is interrupt OUT; the
    trace of such a run ends with the fetch of the configuration, so no
    interface is claimed and nothing is written. *)
Theorem endpoint_not_found_iff (env : Env) (dev : Device) :
  usb_core_find VID PID (attached env) = Some dev ->
  fails env SetConfiguration = false ->
  fails env GetActiveConfiguration = false ->
  (result (run env) = Raised (Exception "Interrupt OUT endpoint not found")
   <-> forall i ep, In i (configuration dev) -> In ep (endpoints i) ->
         ~ (endpoint_direction (bEndpointAddress ep) = ENDPOINT_OUT
            /\ endpoint_type (bmAttributes ep) = ENDPOINT_TYPE_INTR))
  /\ (result (run env) = Raised (Exception "Interrupt OUT endpoint not found") ->
      trace (run env) = [EvFind VID PID; EvSetConfiguration; EvGetActiveConfiguration]).
Proof.
  intros Hdev Hset Hget.
  rewrite <- no_interrupt_out_iff, <- resolve_none_iff.
  rewrite (run_unfold env), Hdev, Hset, Hget.
  destruct (ep_out (resolve (configuration dev))) as [ep|].
  - destruct (intf (resolve (configuration dev))) as [i|];
      [destruct (fails env ClaimInterface), (fails env WriteRumble),
         (fails env WriteStop)|];
      cbn; (split; [split|]; discriminate).
  - cbn. repeat split.
Qed.

(** A receiver with only a bulk OUT and a control endpoint. *)
Lemma endpoint_not_found_iff_witness :
  result (run (healthy [receiver bulk_and_control]))
    = Raised (Exception "Interrupt OUT endpoint not found")
  /\ trace (run (healthy [receiver bulk_and_control]))
    = [EvFind VID PID; EvSetConfiguration; EvGetActiveConfiguration].
Proof.
  destruct (endpoint_not_found_iff (healthy [receiver bulk_and_control])
              (receiver bulk_and_control) eq_refl eq_refl eq_refl) as [Hiff Htrace].
  assert (result (run (healthy [receiver bulk_and_control]))
          = Raised (Exception "Interrupt OUT endpoint not found")) as Hres.
  { apply Hiff. intros i ep Hi Hep [Hd Ht].
    destruct Hi as [<-|[]].
    destruct Hep as [<-|[<-|[]]]; discriminate. }
  split; [exact Hres | exact (Htrace Hres)].
Defined.

(** C9. The loops select the first interrupt OUT endpoint, in descriptor
    order, of the last interface, in configuration order, that has one;
    what earlier interfaces hold does not matter. *)
Theorem resolve_last_interface (pre post : list Interface) (i : Interface)
    (before after : list Endpoint) (ep : Endpoint) :
  endpoints i = before ++ ep :: after ->
  (forall e, In e before -> is_interrupt_out e = false) ->
  is_interrupt_out ep = true ->
  (forall j e, In j post -> In e (endpoints j) -> is_interrupt_out e = false) ->
  resolve (pre ++ i :: post) = {| ep_out := Some ep; intf := Some i |}.
Proof.
  intros Heps Hbefore Hep Hpost.
  apply interface_loop_last.
  - rewrite Heps. now apply find_first.
  - apply forallb_no_interrupt_out. intros j Hj.
    unfold has_interrupt_out.
    destruct (existsb is_interrupt_out (endpoints j)) eqn:E; [|reflexivity].
    apply existsb_exists in E as [e [He E]].
    now rewrite (Hpost j e Hj He) in E.
Qed.

(** Three interfaces: the first and the second have an interrupt OUT
    endpoint, the third has none; the second is selected. *)
Lemma resolve_last_interface_witness :
  resolve ([if0] ++ if1 :: [ {| bInterfaceNumber := 2;
                               endpoints := [ep_in 3; ep_bulk_out 3] |} ])
    = {| ep_out := Some (ep_out_intr 2); intf := Some if1 |}.
Proof.
  apply (resolve_last_interface [if0] _ if1 [ep_in 2] [] (ep_out_intr 2)).
  - reflexivity.
  - intros e [<-|[]]. reflexivity.
  - reflexivity.
  - intros j e [<-|[]] [<-|[<-|[]]]; reflexivity.
Defined.

(** ** The whole run *)

(** C4. The run raises "Receiver not found" exactly when no attached
    device has vendor id 0x045E and product id 0x0719; the lookup is then
    the only thing the process did: no configuration is activated, no
    endpoint resolved, no interface claimed, nothing written, and the run
    does not return normally. *)
Theorem receiver_not_found_iff (env : Env) :
  (result (run env) = Raised (Exception "Receiver not found")
   <-> forall d, In d (attached env) ->
         ~ (idVendor d = 0x045E /\ idProduct d = 0x0719))
  /\ ((forall d, In d (attached env) ->
         ~ (idVendor d = 0x045E /\ idProduct d = 0x0719)) ->
      run env = (Raised (Exception "Receiver not found"), [EvFind 0x045E 0x0719])).
Proof.
  change 0x045E with VID. change 0x0719 with PID.
  rewrite <- usb_core_find_none, (run_unfold env).
  destruct (usb_core_find VID PID (attached env)) as [dev|].
  - split; [|discriminate].
    destruct (ep_out (resolve (configuration dev))),
      (intf (resolve (configuration dev))),
      (fails env SetConfiguration), (fails env GetActiveConfiguration),
      (fails env ClaimInterface), (fails env WriteRumble), (fails env WriteStop);
      cbn; split; discriminate.
  - repeat split.
Qed.

(** C5. A run that returns made exactly two writes, both to the address
    of the endpoint the scan selected, an interrupt OUT endpoint: first
    the 8 bytes 0,8,255,255,0,0,0,0, then the 8 bytes 0,8,0,0,0,0,0,0. *)
Theorem returned_run_writes (env : Env) :
  result (run env) = Returned tt ->
  exists dev ep,
    usb_core_find VID PID (attached env) = Some dev
    /\ ep_out (resolve (configuration dev)) = Some ep
    /\ is_interrupt_out ep = true
    /\ filter is_write (trace (run env)) =
         [ EvWrite (bEndpointAddress ep) [0; 8; 255; 255; 0; 0; 0; 0];
           EvWrite (bEndpointAddress ep) [0; 8; 0; 0; 0; 0; 0; 0] ]
    /\ Forall (fun ev => match ev with
                         | EvWrite _ data => List.length data = 8%nat
                         | _ => True
                         end) (trace (run env)).
Proof.
  intros H. apply run_returned in H as (dev & ep & i & Hdev & Hres & Hrun).
  exists dev, ep. rewrite Hrun, Hres. cbn [ep_out].
  repeat split; [exact Hdev | | repeat constructor].
  assert (ep_out (resolve (configuration dev)) = Some ep) as E
    by now rewrite Hres.
  apply interface_loop_selected in E as [E|E]; [discriminate | exact E].
Qed.

Lemma returned_run_writes_witness :
  exists dev ep,
    usb_core_find VID PID (attached (healthy [mouse; receiver in_and_out])) = Some dev
    /\ ep_out (resolve (configuration dev)) = Some ep
    /\ is_interrupt_out ep = true
    /\ filter is_write (trace (run (healthy [mouse; receiver in_and_out]))) =
         [ EvWrite (bEndpointAddress ep) [0; 8; 255; 255; 0; 0; 0; 0];
           EvWrite (bEndpointAddress ep) [0; 8; 0; 0; 0; 0; 0; 0] ]
    /\ Forall (fun ev => match ev with
                         | EvWrite _ data => List.length data = 8%nat
                         | _ => True
                         end) (trace (run (healthy [mouse; receiver in_and_out]))).
Proof.
  apply (returned_run_writes (healthy [mouse; receiver in_and_out])).
  reflexivity.
Defined.

(** C6. A run that returns did, in this order and nothing else: the
    lookup of the device, the activation of its configuration, the
    resolution of the endpoint (the fetch of the active configuration,
    on which the scan then runs without any call), the claim of the
    interface the scan selected, the write of the activation packet, the
    sleep of 2 seconds, the write of the deactivation packet, and the
    print of "Done". *)
Theorem returned_run_sequence (env : Env) :
  result (run env) = Returned tt ->
  exists dev ep i,
    usb_core_find VID PID (attached env) = Some dev
    /\ resolve (configuration dev) = {| ep_out := Some ep; intf := Some i |}
    /\ trace (run env) =
         [ EvFind 0x045E 0x0719;
           EvSetConfiguration;
           EvGetActiveConfiguration;
           EvClaimInterface (bInterfaceNumber i);
           EvWrite (bEndpointAddress ep) [0; 8; 255; 255; 0; 0; 0; 0];
           EvSleep 2;
           EvWrite (bEndpointAddress ep) [0; 8; 0; 0; 0; 0; 0; 0];
           EvPrint "Done" ].
Proof.
  intros H. apply run_returned in H as (dev & ep & i & Hdev & Hres & Hrun).
  exists dev, ep, i. rewrite Hrun. repeat split; assumption.
Qed.

Lemma returned_run_sequence_witness :
  exists dev ep i,
    usb_core_find VID PID (attached (healthy [receiver in_and_out])) = Some dev
    /\ resolve (configuration dev) = {| ep_out := Some ep; intf := Some i |}
    /\ trace (run (healthy [receiver in_and_out])) =
         [ EvFind 0x045E 0x0719;
           EvSetConfiguration;
           EvGetActiveConfiguration;
           EvClaimInterface (bInterfaceNumber i);
           EvWrite (bEndpointAddress ep) [0; 8; 255; 255; 0; 0; 0; 0];
           EvSleep 2;
           EvWrite (bEndpointAddress ep) [0; 8; 0; 0; 0; 0; 0; 0];
           EvPrint "Done" ].
Proof.
  apply (returned_run_sequence (healthy [receiver in_and_out])).
  reflexivity.
Defined.



(** C8. The scan sets [ep_out] and [intf] together, to an endpoint and
    the interface of the configuration that holds it; so whenever a run
    claims interface number [n] and writes to address [a], [n] is the
    number of an interface of the device's configuration and [a] the
    address of one of that interface's endpoints. *)
Theorem claim_owns_written_endpoint (env : Env) (n a : Z) (data : list Z) :
  In (EvClaimInterface n) (trace (run env)) ->
  In (EvWrite a data) (trace (run env)) ->
  exists dev i ep,
    usb_core_find VID PID (attached env) = Some dev
    /\ resolve (configuration dev) = {| ep_out := Some ep; intf := Some i |}
    /\ In i (configuration dev)
    /\ In ep (endpoints i)
    /\ n = bInterfaceNumber i
    /\ a = bEndpointAddress ep.
Proof.
  intros Hclaim Hwrite. rewrite (run_unfold env) in *.
  destruct (usb_core_find VID PID (attached env)) as [dev|];
    [|cbn in Hclaim; intuition discriminate].
  pose proof (resolve_paired (configuration dev)) as Hpair.
  unfold paired in Hpair.
  destruct (resolve (configuration dev)) as [[ep|] [i|]] eqn:Hres;
    cbn [ep_out intf] in *; try contradiction;
    destruct (fails env SetConfiguration), (fails env GetActiveConfiguration);
    try (cbn in Hclaim; intuition discriminate).
  destruct Hpair as [Hi Hep].
  exists dev, i, ep.
  assert (n = bInterfaceNumber i /\ a = bEndpointAddress ep) as [-> ->];
    [|repeat split; assumption || reflexivity].
  destruct (fails env ClaimInterface), (fails env WriteRumble),
    (fails env WriteStop); cbn in Hclaim, Hwrite;
    repeat match goal with
      | H : _ \/ _ |- _ => destruct H
      | H : False |- _ => destruct H
      | H : _ = _ |- _ => discriminate H
      | H : EvClaimInterface _ = EvClaimInterface _ |- _ => injection H as <-
      | H : EvWrite _ _ = EvWrite _ _ |- _ => injection H as <- <-
      end; split; reflexivity.
Qed.

Lemma claim_owns_written_endpoint_witness :
  exists dev i ep,
    usb_core_find VID PID (attached (healthy [receiver two_interfaces])) = Some dev
    /\ resolve (configuration dev) = {| ep_out := Some ep; intf := Some i |}
    /\ In i (configuration dev)
    /\ In ep (endpoints i)
    /\ 1 = bInterfaceNumber i
    /\ 2 = bEndpointAddress ep.
Proof.
  apply (claim_owns_written_endpoint (healthy [receiver two_interfaces]) 1 2
           [0; 8; 0; 0; 0; 0; 0; 0]).
  - cbn. tauto.
  - cbn. tauto.
Defined.




(** ** Further properties of the scan *)

Section ScanLaws.

(** Once some interface of [cfg] has an interrupt OUT endpoint, what the
    variables held before the loop is overwritten. *)
Lemma interface_loop_overwrite (cfg : list Interface) (st st' : Vars) :
  existsb has_interrupt_out cfg = true ->
  interface_loop cfg st = interface_loop cfg st'.
Proof.
  revert st st'. induction cfg as [|i cfg IH]; intros st st' H;
    cbn [interface_loop existsb] in *; [discriminate|].
  rewrite !endpoint_loop_find.
  destruct (find is_interrupt_out (endpoints i)) as [e|] eqn:F; [reflexivity|].
  apply find_none_existsb in F.
  change (has_interrupt_out i) with (existsb is_interrupt_out (endpoints i)) in H.
  rewrite F in H. now apply IH.
Qed.

Lemma interface_loop_keep (cfg : list Interface) (st : Vars) :
  existsb has_interrupt_out cfg = false -> interface_loop cfg st = st.
Proof.
  intros H. apply interface_loop_skip, forallb_forall. intros j Hj.
  destruct (has_interrupt_out j) eqn:E; [|reflexivity].
  assert (existsb has_interrupt_out cfg = true) as E'
    by (apply existsb_exists; now exists j).
  congruence.
Qed.

Lemma find_some_split {A : Type} (p : A -> bool) (l : list A) (a : A) :
  find p l = Some a ->
  exists before after,
    l = before ++ a :: after
    /\ (forall x, In x before -> p x = false)
    /\ p a = true.
Proof.
  induction l as [|b l IH]; cbn; [discriminate|].
  destruct (p b) eqn:Pb.
  - intros [= ->]. exists [], l. repeat split; [intros x []| exact Pb].
  - intros H. destruct (IH H) as (before & after & -> & Hb & Ha).
    exists (b :: before), after. repeat split; [|exact Ha].
    intros x [<-|Hx]; [exact Pb | now apply Hb].
Qed.

(** Where the loop ends on [ep] and [i]: the variables held them before
    and no interface changed them, or [i] is an interface of the list,
    [ep] its first interrupt OUT endpoint, and no later interface has
    one. *)
Lemma interface_loop_selected_inv (cfg : list Interface) (st : Vars)
    (ep : Endpoint) (i : Interface) :
  interface_loop cfg st = {| ep_out := Some ep; intf := Some i |} ->
  (st = {| ep_out := Some ep; intf := Some i |}
   /\ existsb has_interrupt_out cfg = false)
  \/ exists pre post,
       cfg = pre ++ i :: post
       /\ find is_interrupt_out (endpoints i) = Some ep
       /\ existsb has_interrupt_out post = false.
Proof.
  revert st. induction cfg as [|j cfg IH]; intros st H;
    cbn [interface_loop existsb] in *; [now left|].
  apply IH in H as [[H Hnone]|(pre & post & -> & Hep & Hpost)].
  - rewrite endpoint_loop_find in H.
    destruct (find is_interrupt_out (endpoints j)) as [e|] eqn:F.
    + injection H as -> ->. right. exists [], cfg. now repeat split.
    + left. apply find_none_existsb in F.
      change (has_interrupt_out j) with (existsb is_interrupt_out (endpoints j)).
      now rewrite F, Hnone.
  - right. exists (j :: pre), post. now repeat split.
Qed.

End ScanLaws.

(** X7. Scanning a configuration made of two parts: if the second part
    has an interface with an interrupt OUT endpoint, the result is the
    scan of the second part alone; otherwise it is the scan of the first
    part. *)
Theorem resolve_app (a b : list Interface) :
  resolve (a ++ b) = if existsb has_interrupt_out b then resolve b else resolve a.
Proof.
  unfold resolve. rewrite interface_loop_app.
  destruct (existsb has_interrupt_out b) eqn:E.
  - now apply interface_loop_overwrite.
  - now apply interface_loop_keep.
Qed.

(** X8. Whatever the scan selects is the first interrupt OUT endpoint, in
    descriptor order, of an interface of the configuration after which no
    interface has an interrupt OUT endpoint. *)
Theorem resolve_selected_is_last (cfg : Configuration) (ep : Endpoint)
    (i : Interface) :
  resolve cfg = {| ep_out := Some ep; intf := Some i |} ->
  exists pre post before after,
    cfg = pre ++ i :: post
    /\ endpoints i = before ++ ep :: after
    /\ (forall e, In e before -> is_interrupt_out e = false)
    /\ is_interrupt_out ep = true
    /\ (forall j e, In j post -> In e (endpoints j) -> is_interrupt_out e = false).
Proof.
  intros H. apply interface_loop_selected_inv in H
    as [[H _]|(pre & post & Hcfg & Hep & Hpost)]; [discriminate|].
  apply find_some_split in Hep as (before & after & Heps & Hbefore & Hq).
  exists pre, post, before, after. repeat split; try assumption.
  intros j e Hj He.
  destruct (is_interrupt_out e) eqn:E; [|reflexivity].
  assert (existsb has_interrupt_out post = true) as E'; [|congruence].
  apply existsb_exists. exists j. split; [exact Hj|].
  apply existsb_exists. now exists e.
Qed.

Lemma resolve_selected_is_last_witness :
  exists pre post before after,
    two_interfaces = pre ++ if1 :: post
    /\ endpoints if1 = before ++ ep_out_intr 2 :: after
    /\ (forall e, In e before -> is_interrupt_out e = false)
    /\ is_interrupt_out (ep_out_intr 2) = true
    /\ (forall j e, In j post -> In e (endpoints j) -> is_interrupt_out e = false).
Proof.
  apply (resolve_selected_is_last two_interfaces (ep_out_intr 2) if1).
  reflexivity.
Defined.

(** X9. The loops compute first-match over the interfaces taken in
    reverse configuration order, endpoints still in descriptor order; they
    leave both variables unset exactly when first-match finds nothing. *)
Theorem resolve_rev_first_match (cfg : Configuration) :
  resolve cfg = selection (first_match (rev cfg)).
Proof.
  induction cfg as [|i cfg IH] using rev_ind; [reflexivity|].
  rewrite rev_app_distr. cbn [rev app first_match].
  unfold resolve in *. rewrite interface_loop_app. cbn [interface_loop].
  rewrite endpoint_loop_find.
  destruct (find is_interrupt_out (endpoints i)); [reflexivity | exact IH].
Qed.

(** ** Further properties of the run *)

(** X1. No run raises [AttributeError]: whenever the script gets to
    [intf.bInterfaceNumber], the loops have set [intf], because they
    never set [ep_out] without it. *)
Theorem run_no_attribute_error (env : Env) :
  result (run env) <> Raised AttributeError.
Proof.
  rewrite (run_unfold env).
  destruct (usb_core_find VID PID (attached env)) as [dev|]; [|discriminate].
  pose proof (resolve_paired (configuration dev)) as Hpair.
  unfold paired in Hpair.
  destruct (resolve (configuration dev)) as [[ep|] [i|]]; cbn [ep_out intf] in *;
    try contradiction;
    destruct (fails env SetConfiguration), (fails env GetActiveConfiguration),
      (fails env ClaimInterface), (fails env WriteRumble), (fails env WriteStop);
    discriminate.
Qed.

(** X2. A run returns exactly when a device with the two ids is
    attached, some interface of the first such device has an interrupt
    OUT endpoint, and none of the five USB calls fails. *)
Theorem run_returns_iff (env : Env) :
  result (run env) = Returned tt
  <-> (exists dev i ep,
         usb_core_find VID PID (attached env) = Some dev
         /\ In i (configuration dev) /\ In ep (endpoints i)
         /\ is_interrupt_out ep = true)
      /\ (forall s, fails env s = false).
Proof.
  rewrite (run_unfold env). split.
  - destruct (usb_core_find VID PID (attached env)) as [dev|]; [|discriminate].
    destruct (fails env SetConfiguration) eqn:F1; [discriminate|].
    destruct (fails env GetActiveConfiguration) eqn:F2; [discriminate|].
    destruct (ep_out (resolve (configuration dev))) as [ep|] eqn:E; [|discriminate].
    destruct (intf (resolve (configuration dev))) as [i|]; [|discriminate].
    destruct (fails env ClaimInterface) eqn:F3; [discriminate|].
    destruct (fails env WriteRumble) eqn:F4; [discriminate|].
    destruct (fails env WriteStop) eqn:F5; [discriminate|].
    intros _. split; [|intros []; assumption].
    assert (existsb has_interrupt_out (configuration dev) = true) as Hex.
    { destruct (existsb has_interrupt_out (configuration dev)) eqn:X; [reflexivity|].
      apply resolve_none_iff in X. congruence. }
    apply existsb_exists in Hex as [j [Hj Hex]].
    apply existsb_exists in Hex as [e [He Hq]].
    now exists dev, j, e.
  - intros [(dev & j & e & Hdev & Hj & He & Hq) Hf].
    rewrite Hdev, !Hf.
    pose proof (resolve_paired (configuration dev)) as Hpair.
    unfold paired in Hpair.
    destruct (ep_out (resolve (configuration dev))) as [ep|] eqn:E.
    + destruct (intf (resolve (configuration dev))); [reflexivity | contradiction].
    + apply resolve_none_iff in E.
      assert (existsb has_interrupt_out (configuration dev) = true) as Hex;
        [|congruence].
      apply existsb_exists. exists j. split; [exact Hj|].
      apply existsb_exists. now exists e.
Qed.

(** X3. When a USB call raises, that call did fail, it is the last thing
    the run did, and everything before it is the successful sequence up
    to that call: nothing is retried and nothing follows, not even the
    stop packet after a failed rumble write. *)
Theorem usb_error_trace (env : Env) (s : CallSite) :
  result (run env) = Raised (USBError s) ->
  fails env s = true
  /\ exists dev ep i,
       usb_core_find VID PID (attached env) = Some dev
       /\ ((3 < calls_through s)%nat ->
           resolve (configuration dev) = {| ep_out := Some ep; intf := Some i |})
       /\ trace (run env) = firstn (calls_through s) (complete_trace ep i).
Proof.
  rewrite (run_unfold env).
  destruct (usb_core_find VID PID (attached env)) as [dev|]; [|discriminate].
  set (ep0 := {| bEndpointAddress := 0; bmAttributes := 0 |}).
  set (i0 := {| bInterfaceNumber := 0; endpoints := [] |}).
  destruct (fails env SetConfiguration) eqn:F1.
  { intros [= <-]. split; [exact F1|]. exists dev, ep0, i0.
    split; [reflexivity | split; [cbn; lia | reflexivity]]. }
  destruct (fails env GetActiveConfiguration) eqn:F2.
  { intros [= <-]. split; [exact F2|]. exists dev, ep0, i0.
    split; [reflexivity | split; [cbn; lia | reflexivity]]. }
  destruct (resolve (configuration dev)) as [[ep|] [i|]] eqn:Hres;
    cbn [ep_out intf]; try discriminate.
  destruct (fails env ClaimInterface) eqn:F3;
    [intros [= <-]; split; [exact F3|]; now exists dev, ep, i|].
  destruct (fails env WriteRumble) eqn:F4;
    [intros [= <-]; split; [exact F4|]; now exists dev, ep, i|].
  destruct (fails env WriteStop) eqn:F5;
    [intros [= <-]; split; [exact F5|]; now exists dev, ep, i|].
  discriminate.
Qed.

(** The device drops off the bus during the rumble write. *)
Lemma usb_error_trace_witness :
  fails (unplugged [receiver in_and_out]) WriteRumble = true
  /\ exists dev ep i,
       usb_core_find VID PID (attached (unplugged [receiver in_and_out])) = Some dev
       /\ ((3 < calls_through WriteRumble)%nat ->
           resolve (configuration dev) = {| ep_out := Some ep; intf := Some i |})
       /\ trace (run (unplugged [receiver in_and_out]))
          = firstn (calls_through WriteRumble) (complete_trace ep i).
Proof.
  apply (usb_error_trace (unplugged [receiver in_and_out]) WriteRumble).
  reflexivity.
Defined.

(** X4. On every path, a write goes to an address whose direction bit
    says OUT, carries one of the two packets, and comes after the claim
    of an interface, which is the fourth thing the run did. *)
Theorem write_is_out_after_claim (env : Env) (a : Z) (data : list Z) :
  In (EvWrite a data) (trace (run env)) ->
  endpoint_direction a = ENDPOINT_OUT
  /\ (data = [0; 8; 255; 255; 0; 0; 0; 0] \/ data = [0; 8; 0; 0; 0; 0; 0; 0])
  /\ exists n,
       firstn 4 (trace (run env)) =
         [EvFind VID PID; EvSetConfiguration; EvGetActiveConfiguration;
          EvClaimInterface n].
Proof.
  rewrite (run_unfold env).
  destruct (usb_core_find VID PID (attached env)) as [dev|];
    [|cbn; intuition discriminate].
  destruct (fails env SetConfiguration); [cbn; intuition discriminate|].
  destruct (fails env GetActiveConfiguration); [cbn; intuition discriminate|].
  destruct (ep_out (resolve (configuration dev))) as [ep|] eqn:E;
    [|cbn; intuition discriminate].
  apply interface_loop_selected in E as [E|E]; [discriminate|].
  apply is_interrupt_out_iff in E as [Hdir _].
  destruct (intf (resolve (configuration dev))) as [i|];
    [|cbn; intuition discriminate].
  destruct (fails env ClaimInterface), (fails env WriteRumble),
    (fails env WriteStop); cbn; intros H;
    repeat match goal with
      | H : _ \/ _ |- _ => destruct H
      | H : False |- _ => destruct H
      | H : _ = _ |- _ => discriminate H
      | H : EvWrite _ _ = EvWrite _ _ |- _ => injection H as <- <-
      end;
    (split; [exact Hdir|]; split; [auto|]; now exists (bInterfaceNumber i)).
Qed.

Lemma write_is_out_after_claim_witness :
  endpoint_direction 0x01 = ENDPOINT_OUT
  /\ ([0; 8; 255; 255; 0; 0; 0; 0] = [0; 8; 255; 255; 0; 0; 0; 0]
      \/ [0; 8; 255; 255; 0; 0; 0; 0] = [0; 8; 0; 0; 0; 0; 0; 0])
  /\ exists n,
       firstn 4 (trace (run (unplugged [receiver in_and_out]))) =
         [EvFind VID PID; EvSetConfiguration; EvGetActiveConfiguration;
          EvClaimInterface n].
Proof.
  apply (write_is_out_after_claim (unplugged [receiver in_and_out]) 0x01
           [0; 8; 255; 255; 0; 0; 0; 0]).
  cbn. tauto.
Defined.

(** X5. The only text a run prints is "Done", and it prints it exactly
    when it returns: after any exception nothing has been printed. *)
Theorem print_iff_returned (env : Env) (text : string) :
  In (EvPrint text) (trace (run env))
  <-> result (run env) = Returned tt /\ text = "Done"%string.
Proof.
  rewrite (run_unfold env).
  destruct (usb_core_find VID PID (attached env)) as [dev|];
    [|cbn; intuition discriminate].
  destruct (ep_out (resolve (configuration dev))),
    (intf (resolve (configuration dev))),
    (fails env SetConfiguration), (fails env GetActiveConfiguration),
    (fails env ClaimInterface), (fails env WriteRumble), (fails env WriteStop);
    cbn; try solve [intuition discriminate].
  split.
  - intros H.
    repeat match goal with
      | H : _ \/ _ |- _ => destruct H
      | H : False |- _ => destruct H
      | H : _ = _ |- _ => discriminate H
      | H : EvPrint _ = EvPrint _ |- _ => injection H as <-
      end. now split.
  - intros [_ ->]. tauto.
Qed.

(** X6. Only the first attached device with the two ids counts: devices
    enumerated before it that lack an id, and every device after it,
    matching or not, do not change the run. *)
Theorem run_first_matching_device (pre post : list Device) (d : Device)
    (f : CallSite -> bool) :
  (forall x, In x pre -> ~ (idVendor x = 0x045E /\ idProduct x = 0x0719)) ->
  idVendor d = 0x045E -> idProduct d = 0x0719 ->
  run {| attached := pre ++ d :: post; fails := f |}
  = run {| attached := [d]; fails := f |}.
Proof.
  intros Hpre Hv Hp. rewrite !run_unfold. cbn [attached fails].
  assert (forall l l', (forall x, In x l ->
                          ~ (idVendor x = 0x045E /\ idProduct x = 0x0719)) ->
                       usb_core_find VID PID (l ++ d :: l') = Some d) as Hfind.
  { intros l l' Hl. unfold usb_core_find. apply find_first.
    - intros x Hx. specialize (Hl x Hx).
      destruct (idVendor x =? VID) eqn:Ev, (idProduct x =? PID) eqn:Ep;
        try reflexivity.
      apply Z.eqb_eq in Ev, Ep. now destruct Hl.
    - unfold VID, PID. now rewrite Hv, Hp. }
  rewrite (Hfind pre post Hpre).
  change [d] with ([] ++ d :: []).
  rewrite (Hfind [] [] (fun x (H : In x []) => match H with end)).
  reflexivity.
Qed.

(** A mouse, the receiver, and a second receiver with another layout. *)
Lemma run_first_matching_device_witness :
  run {| attached := [mouse] ++ receiver in_and_out :: [receiver two_interfaces];
         fails := fun _ => false |}
  = run {| attached := [receiver in_and_out]; fails := fun _ => false |}.
Proof.
  apply (run_first_matching_device [mouse] [receiver two_interfaces]
           (receiver in_and_out) (fun _ => false)).
  - intros x [<-|[]] [Hv _]. discriminate.
  - reflexivity.
  - reflexivity.
Defined.
